(** * H2Ok map page: a shallow embedding of [src/App.jsx]

    The development follows the [MapPage] component: its [useState] cells,
    the asynchronous [loadPartners] routine, the two effects
    ([useEffect] on the filter cells and the [Recenter] effect), the
    [onLocate] handler and the [markers] memo.  JavaScript numbers are
    binary64 floats, strings are byte strings, the [URLSearchParams] object
    is an ordered association list, and React elements are a small tree
    type. *)

From Stdlib Require Import List String Ascii Bool Arith Lia.
From Stdlib Require Import Floats.
Import ListNotations.
Local Open Scope string_scope.

Set Warnings "-inexact-float,-register-all".

(** ** JavaScript numbers *)

Definition number := float.

(** ** URLSearchParams

    An ordered list of name/value pairs.  [set] overwrites the first pair
    with the given name and drops the later ones, or appends a new pair
    when the name is not there yet. *)

Module URLSearchParams.

Definition t := list (string * string).

Definition empty : t := [].

Definition delete (name : string) (l : t) : t :=
  filter (fun nv => negb (String.eqb (fst nv) name)) l.

Fixpoint set (name value : string) (l : t) : t :=
  match l with
  | [] => [(name, value)]
  | (n, v) :: rest =>
      if String.eqb n name
      then (name, value) :: delete name rest
      else (n, v) :: set name value rest
  end.

Fixpoint get (name : string) (l : t) : option string :=
  match l with
  | [] => None
  | (n, v) :: rest => if String.eqb n name then Some v else get name rest
  end.

Definition has (name : string) (l : t) : bool :=
  existsb (fun nv => String.eqb (fst nv) name) l.

End URLSearchParams.

(** ** The filter cells of [MapPage] *)

(** The keys of the [categories] table. *)
Inductive Category := all | shop | cafe | university | sports.

Definition category_key (c : Category) : string :=
  match c with
  | all => "all"
  | shop => "shop"
  | cafe => "cafe"
  | university => "university"
  | sports => "sports"
  end.

Definition Category_eqb (a b : Category) : bool :=
  String.eqb (category_key a) (category_key b).

(** Truthiness of a JavaScript string: only the empty string is falsy. *)
Definition truthy_string (s : string) : bool :=
  match s with
  | EmptyString => false
  | String _ _ => true
  end.

(** ** Point records

    One element of the [items] list of the partners endpoint, with the
    properties the component reads.  [open_hours] is optional. *)

Module Partner.

Record t := make {
  id : string;
  name : string;
  address : string;
  latitude : number;
  longitude : number;
  open_hours : option string;
  has_hot : bool;
  has_cold : bool;
  access_type : string;
  is_new : bool
}.

End Partner.

(** ** React elements *)

(** A piece of a template literal: literal text or a substituted number. *)
Inductive part :=
| Lit (s : string)
| Subst (n : number).

(** The value of a JSX attribute. *)
Inductive attr :=
| AString (s : string)
| ALatLng (lat lng : number)
| ATemplate (parts : list part).

(** A JSX child.  [VNothing] stands for the values React renders as nothing
    ([false], [null], [undefined]). *)
Inductive vnode :=
| VText (s : string)
| VNothing
| VElem (tag : string) (key : option string)
        (props : list (string * attr)) (children : list vnode).

Definition className (c : string) : string * attr := ("className", AString c).

(** ** The component *)

Module MapPage.

Record State := mkState {
  partners : list Partner.t;
  loading : bool;
  error : string;
  center : number * number;
  category : Category;
  hasHot : bool;
  hasCold : bool;
  query : string
}.

(** The [useState] initial values. *)
Definition initial_state : State :=
  {| partners := [];
     loading := true;
     error := "";
     center := (57.15303%float, 65.53433%float);
     category := all;
     hasHot := false;
     hasCold := true;
     query := "" |}.

Definition setPartners (v : list Partner.t) (s : State) : State :=
  mkState v (loading s) (error s) (center s) (category s) (hasHot s) (hasCold s) (query s).
Definition setLoading (v : bool) (s : State) : State :=
  mkState (partners s) v (error s) (center s) (category s) (hasHot s) (hasCold s) (query s).
Definition setError (v : string) (s : State) : State :=
  mkState (partners s) (loading s) v (center s) (category s) (hasHot s) (hasCold s) (query s).
Definition setCenter (v : number * number) (s : State) : State :=
  mkState (partners s) (loading s) (error s) v (category s) (hasHot s) (hasCold s) (query s).
Definition setCategory (v : Category) (s : State) : State :=
  mkState (partners s) (loading s) (error s) (center s) v (hasHot s) (hasCold s) (query s).
Definition setHasHot (v : bool) (s : State) : State :=
  mkState (partners s) (loading s) (error s) (center s) (category s) v (hasCold s) (query s).
Definition setHasCold (v : bool) (s : State) : State :=
  mkState (partners s) (loading s) (error s) (center s) (category s) (hasHot s) v (query s).
Definition setQuery (v : string) (s : State) : State :=
  mkState (partners s) (loading s) (error s) (center s) (category s) (hasHot s) (hasCold s) v.

(** *** [loadPartners]: building the query (lines 80-84) *)

Definition toQueryParameters (s : State) : URLSearchParams.t :=
  let params := URLSearchParams.empty in
  let params :=
    if negb (Category_eqb (category s) all)
    then URLSearchParams.set "category" (category_key (category s)) params
    else params in
  let params :=
    if hasHot s then URLSearchParams.set "has_hot" "true" params else params in
  let params :=
    if hasCold s then URLSearchParams.set "has_cold" "true" params else params in
  let params :=
    if truthy_string (query s) then URLSearchParams.set "q" (query s) params
    else params in
  params.

(** *** The network *)

(** What [res.json()] resolves to, for bodies of the shape the partners
    endpoint documents: the value [null], on which reading [.items]
    throws, or a value whose [items] is a list of point records or is
    absent.  Other JSON values (an [items] that is not a list, records
    without the properties the markers read) are outside this type:
    [State] holds point records only, while the component would store
    such a value unchecked and fail when rendering it. *)
Inductive JsonData :=
| JsonNull
| JsonValue (items : option (list Partner.t)).

Inductive Body :=
| NotJson
| Json (data : JsonData).

(** How one [fetch] ends: the promise rejects, or it resolves with a
    response of some HTTP status. *)
Inductive FetchOutcome :=
| NetworkError
| Responded (status : nat) (body : Body).

(** The [try] block after the request is sent (lines 85-87), on the
    outcomes above: [None] when an exception is thrown, otherwise the
    argument of [setPartners]. *)
Definition try_block (o : FetchOutcome) : option (list Partner.t) :=
  match o with
  | NetworkError => None
  | Responded _ NotJson => None
  | Responded _ (Json JsonNull) => None
  | Responded _ (Json (JsonValue (Some items))) => Some items
  | Responded _ (Json (JsonValue None)) => Some []
  end.

(** A [loadPartners] call in flight: the parameters it sent and whether
    its continuation has run. *)
Record Call := mkCall {
  request : URLSearchParams.t;
  settled : bool
}.

(** The Leaflet map's own view. *)
Record Viewport := mkViewport {
  view_center : number * number;
  zoom : number
}.

Record World := mkWorld {
  state : State;
  view : Viewport;
  calls : list Call
}.

Definition with_state (s : State) (w : World) : World :=
  mkWorld s (view w) (calls w).

(** [loadPartners] up to its first [await]. *)
Definition loadPartners_begin (w : World) : World :=
  let s := setError "" (setLoading true (state w)) in
  mkWorld s (view w) (calls w ++ [mkCall (toQueryParameters (state w)) false]).

(** [loadPartners] from the [await] on: [try] / [catch] / [finally]. *)
Definition loadPartners_resume (o : FetchOutcome) (s : State) : State :=
  let s :=
    match try_block o with
    | Some items => setPartners items s
    | None => setError "Failed to load points" s
    end in
  setLoading false s.

(** *** Effects *)

(** [useEffect(..., [category, hasHot, hasCold])]: runs after a render in
    which one of the three cells differs from the previous render. *)
Definition deps_changed (old new : State) : bool :=
  negb (Category_eqb (category old) (category new))
  || negb (Bool.eqb (hasHot old) (hasHot new))
  || negb (Bool.eqb (hasCold old) (hasCold new)).

(** The render that follows a state write: the filter effect compares
    its dependencies with those of the previous render. *)
Definition render (old : State) (w : World) : World :=
  if deps_changed old (state w) then loadPartners_begin w else w.

(** A handler calling one [useState] setter. *)
Definition update (f : State -> State) (w : World) : World :=
  render (state w) (with_state (f (state w)) w).

(** The effect of [Recenter]: [map.setView(center, 13)].  It runs on mount
    and after [setCenter], which always passes a fresh array. *)
Definition Recenter (w : World) : World :=
  mkWorld (state w) (mkViewport (center (state w)) 13%float) (calls w).

(** *** [onLocate] *)

(** [navigator.geolocation] is missing, or [getCurrentPosition] fails (no
    error callback is passed), or it calls back with a position. *)
Inductive Geolocation :=
| Unavailable
| PositionError
| Position (lat lng : number).

Definition onLocate (g : Geolocation) (w : World) : World :=
  match g with
  | Unavailable => w
  | PositionError => w
  | Position lat lng => Recenter (update (setCenter (lat, lng)) w)
  end.

(** *** Events

    What can happen to the mounted page, one handler at a time (the
    browser runs handlers and promise continuations to completion, never
    interleaved).  [Settle i o] is the end of the i-th [loadPartners]
    call: nothing is written between [await fetch] and [await res.json()],
    so both awaits are one event.  [ClickLocate g] is a click on the
    locate button together with what the geolocation service answers;
    the click itself writes nothing.  [MoveMap] is the user panning or
    zooming the Leaflet map, which React does not see. *)

Inductive Event :=
| InputQuery (text : string)
| ClickSearch
| ClickCategory (c : Category)
| CheckCold (checked : bool)
| CheckHot (checked : bool)
| ClickLocate (g : Geolocation)
| MoveMap (v : Viewport)
| Settle (i : nat) (o : FetchOutcome).

(** Marks the i-th call as settled; [None] when there is no such call or
    it has settled already. *)
Fixpoint settle_at (i : nat) (l : list Call) : option (list Call) :=
  match l, i with
  | [], _ => None
  | c :: rest, 0 =>
      if settled c then None else Some (mkCall (request c) true :: rest)
  | c :: rest, S j =>
      match settle_at j rest with
      | Some rest' => Some (c :: rest')
      | None => None
      end
  end.

Definition step (w : World) (e : Event) : option World :=
  match e with
  | InputQuery text => Some (update (setQuery text) w)
  | ClickSearch => Some (loadPartners_begin w)
  | ClickCategory c => Some (update (setCategory c) w)
  | CheckCold b => Some (update (setHasCold b) w)
  | CheckHot b => Some (update (setHasHot b) w)
  | ClickLocate g => Some (onLocate g w)
  | MoveMap v => Some (mkWorld (state w) v (calls w))
  | Settle i o =>
      match settle_at i (calls w) with
      | Some l => Some (mkWorld (loadPartners_resume o (state w)) (view w) l)
      | None => None
      end
  end.

Fixpoint run (w : World) (es : list Event) : option World :=
  match es with
  | [] => Some w
  | e :: rest =>
      match step w e with
      | Some w' => run w' rest
      | None => None
      end
  end.

(** The page right after mounting: the map is created at zoom 12, then
    the [Recenter] effect and the filter effect run once. *)
Definition mount : World :=
  let w := mkWorld initial_state (mkViewport (center initial_state) 12%float) [] in
  loadPartners_begin (Recenter w).

(** *** Rendering *)

(** The children of the popup's [<div className="space-y-1">] for one
    point (lines 110-115). *)
Definition popup_lines (p : Partner.t) : list vnode :=
  [ VElem "div" None [className "font-semibold"]
      [ VText (Partner.name p); VText " ";
        if Partner.is_new p
        then VElem "span" None [className "ml-2 text-xs text-green-600"]
               [VText "new"]
        else VNothing ];
    VElem "div" None [className "text-xs text-slate-600"]
      [ VText (Partner.address p) ];
    match Partner.open_hours p with
    | None => VNothing
    | Some h =>
        if truthy_string h
        then VElem "div" None [className "text-xs"] [VText "Hours: "; VText h]
        else VText h
    end;
    VElem "div" None [className "text-xs"]
      [ VText "Water: ";
        VText (if Partner.has_cold p then "cold" else "");
        VText " ";
        VText (if Partner.has_hot p then "/ hot" else "") ];
    VElem "div" None [className "text-xs"]
      [ VText "Access: ";
        VText (if String.eqb (Partner.access_type p) "free"
               then "free" else "ask staff") ];
    VElem "a" None
      [ className "text-blue-600 text-xs";
        ("target", AString "_blank");
        ("rel", AString "noreferrer");
        ("href", ATemplate
           [ Lit "https://www.google.com/maps/dir/?api=1&destination=";
             Subst (Partner.latitude p); Lit ","; Subst (Partner.longitude p) ]) ]
      [ VText "Directions" ] ].

(** One [<Marker>] element (lines 107-118). *)
Definition marker (p : Partner.t) : vnode :=
  VElem "Marker" (Some (Partner.id p))
    [ ("position", ALatLng (Partner.latitude p) (Partner.longitude p)) ]
    [ VElem "Popup" None []
        [ VElem "div" None [className "space-y-1"] (popup_lines p) ] ].

(** [partners.map(p => <Marker ...>)]. *)
Definition markers (s : State) : list vnode :=
  map marker (partners s).

(** [{error && <div className="text-red-600 text-sm">{error}</div>}]. *)
Definition error_banner (s : State) : vnode :=
  if truthy_string (error s)
  then VElem "div" None [className "text-red-600 text-sm"] [VText (error s)]
  else VText (error s).

(** The [key] of an element. *)
Definition key_of (v : vnode) : option string :=
  match v with
  | VElem _ k _ _ => k
  | _ => None
  end.

(** A popup line that carries the water types: a [div] of class
    [text-xs] that starts with the text [Water: ]. *)
Definition is_water_line (v : vnode) : bool :=
  match v with
  | VElem tag _ [(n, AString c)] (VText label :: _) =>
      String.eqb tag "div" && String.eqb n "className"
      && String.eqb c "text-xs" && String.eqb label "Water: "
  | _ => false
  end.

End MapPage.

Import MapPage.

(** ** The category buttons (lines 23-29 and 133-135) *)

(** The [categories] table: key and label. *)
Definition categories : list (Category * string) :=
  [ (all, "All");
    (shop, "Shops");
    (cafe, "Cafes");
    (university, "Universities");
    (sports, "Sports") ].

(** A rendered [<button>]: its key, class, label and what a click does. *)
Record button := mkButton {
  button_key : string;
  button_className : string;
  button_label : string;
  onClick : Event
}.

(** One button of [categories.map(c => <button ...>)]. *)
Definition category_button (s : State) (c : Category * string) : button :=
  mkButton (category_key (fst c))
           ("px-3 py-1.5 rounded border text-sm "
            ++ (if Category_eqb (category s) (fst c)
                then "bg-slate-900 text-white" else "bg-white"))
           (snd c)
           (ClickCategory (fst c)).

Definition category_buttons (s : State) : list button :=
  map (category_button s) categories.

(** ** The updates page (lines 160-184) *)

Module Update.

Record t := make {
  id : string;
  title : string;
  content : string;
  external_url : option string
}.

End Update.

Module UpdatesPage.

(** The single [useState] cell, [items], starts empty. *)
Record State := mkState {
  items : list Update.t
}.

Definition initial_state : State := mkState [].

(** What [r.json()] resolves to, as for the partners endpoint. *)
Inductive JsonData :=
| JsonNull
| JsonValue (items : option (list Update.t)).

Inductive Body :=
| NotJson
| Json (data : JsonData).

Inductive FetchOutcome :=
| NetworkError
| Responded (status : nat) (body : Body).



(** One card of [items.map(it => ...)] (lines 174-178). *)
Definition card (it : Update.t) : vnode :=
  VElem "div" (Some (Update.id it)) [className "border rounded p-4 bg-white"]
    [ VElem "div" None [className "font-medium"] [VText (Update.title it)];
      VElem "div" None [className "text-sm text-slate-700 whitespace-pre-line"]
        [VText (Update.content it)];
      match Update.external_url it with
      | None => VNothing
      | Some u =>
          if truthy_string u
          then VElem "a" None
                 [ className "text-blue-600 text-sm";
                   ("target", AString "_blank");
                   ("rel", AString "noreferrer");
                   ("href", AString u) ]
                 [VText "Read more"]
          else VText u
      end ].

(** The children of the page's inner [div] (lines 170-180). *)
Definition body (s : State) : list vnode :=
  [ VElem "h1" None [className "text-2xl font-semibold"] [VText "Updates"];
    if Nat.eqb (List.length (items s)) 0
    then VElem "div" None [className "text-slate-500"] [VText "No updates yet"]
    else VNothing;
    VElem "div" None [className "space-y-4"] (map card (items s)) ].


End UpdatesPage.

(** * Vocabulary of the properties *)

Definition default_criteria (s : State) : Prop :=
  category s = all /\ hasCold s = true /\ hasHot s = false /\ query s = "".

(** A parameter that is present only under a condition. *)
Definition param_if (b : bool) (n v : string) : URLSearchParams.t :=
  if b then [(n, v)] else [].

Definition sample_point (cold hot : bool) : Partner.t :=
  Partner.make "p1" "Cafe" "Lenina 1" 57.15%float 65.53%float None hot cold
               "free" false.

(** The i-th [loadPartners] call has been started and its continuation has
    not run yet. *)
Definition pending (l : list Call) (i : nat) : bool :=
  match nth_error l i with
  | Some c => negb (settled c)
  | None => false
  end.

Definition in_flight (w : World) (i : nat) : bool := pending (calls w) i.

(** An outcome counts as a failed query when the [try] block throws. *)
Definition query_fails (o : FetchOutcome) : bool :=
  match try_block o with
  | Some _ => false
  | None => true
  end.

(** An event whose handler reaches the [catch] clause. *)
Definition raises_error (e : Event) : bool :=
  match e with
  | Settle _ o => query_fails o
  | _ => false
  end.

(** An event after which [loadPartners] is called: the search button, or a
    click that really changes one of the effect's dependencies. *)
Definition requeries (w : World) (e : Event) : bool :=
  match e with
  | ClickSearch => true
  | ClickCategory c => negb (Category_eqb (category (state w)) c)
  | CheckCold b => negb (Bool.eqb (hasCold (state w)) b)
  | CheckHot b => negb (Bool.eqb (hasHot (state w)) b)
  | _ => false
  end.

Definition point_A : Partner.t :=
  Partner.make "a" "A" "Lenina 1" 57.15%float 65.53%float None false true
               "free" false.

Definition point_B : Partner.t :=
  Partner.make "b" "B" "Lenina 2" 57.16%float 65.54%float None false true
               "ask_staff" true.

Definition ok (items : list Partner.t) : FetchOutcome :=
  Responded 200 (Json (JsonValue (Some items))).

(** Query A (call 1) is issued, then query B (call 2) while A is still in
    flight; B's response arrives first, A's second. *)
Definition overlap_trace : list Event :=
  [ Settle 0 (ok []);
    InputQuery "a"; ClickSearch;
    InputQuery "b"; ClickSearch;
    Settle 2 (ok [point_B]);
    Settle 1 (ok [point_A]) ].

(** The button carries the classes of the selected category. *)
Definition highlighted (b : button) : bool :=
  String.eqb (button_className b)
             "px-3 py-1.5 rounded border text-sm bg-slate-900 text-white".

(** The criteria a state holds. *)
Definition criteria (s : State) : Category * bool * bool * string :=
  (category s, hasHot s, hasCold s, query s).

(** An event whose handler reaches [setPartners]. *)
Definition replaces_points (e : Event) : bool :=
  match e with
  | Settle _ o => negb (query_fails o)
  | _ => false
  end.

(** An event that moves the Leaflet map: the user's pan or zoom, or a
    position delivered to [onLocate]. *)
Definition moves_map (e : Event) : bool :=
  match e with
  | MoveMap _ => true
  | ClickLocate (Position _ _) => true
  | _ => false
  end.

Definition is_MoveMap (e : Event) : bool :=
  match e with
  | MoveMap _ => true
  | _ => false
  end.

(** An event of one of the four filter controls. *)
Definition edits_criteria (e : Event) : bool :=
  match e with
  | InputQuery _ | ClickCategory _ | CheckCold _ | CheckHot _ => true
  | _ => false
  end.

(** The popup line with the opening hours: a [div] of class [text-xs]
    that starts with the text [Hours: ]. *)
Definition is_hours_line (v : vnode) : bool :=
  match v with
  | VElem tag _ [(n, AString c)] (VText label :: _) =>
      String.eqb tag "div" && String.eqb n "className"
      && String.eqb c "text-xs" && String.eqb label "Hours: "
  | _ => false
  end.

(** The children of the popup's first line, which holds the name. *)
Definition name_line_children (p : Partner.t) : list vnode :=
  match popup_lines p with
  | VElem _ _ _ children :: _ => children
  | _ => []
  end.

Definition is_span (v : vnode) : bool :=
  match v with
  | VElem tag _ _ _ => String.eqb tag "span"
  | _ => false
  end.

(** The text children of the popup line that starts with [label]. *)
Fixpoint line_after (label : string) (lines : list vnode) : option (list vnode) :=
  match lines with
  | [] => None
  | VElem _ _ [(_, AString "text-xs")] (VText l :: rest) :: more =>
      if String.eqb l label then Some rest else line_after label more
  | _ :: more => line_after label more
  end.

(** The [position] attribute of a marker. *)
Definition position_of (v : vnode) : option (number * number) :=
  match v with
  | VElem _ _ [(_, ALatLng lat lng)] _ => Some (lat, lng)
  | _ => None
  end.

(** The [href] of the first [a] element among popup lines. *)
Fixpoint href_of (lines : list vnode) : option attr :=
  match lines with
  | [] => None
  | VElem "a" _ [_; _; _; (_, h)] _ :: _ => Some h
  | _ :: more => href_of more
  end.

(** The numbers substituted into a template literal, in order. *)
Fixpoint substituted (parts : list part) : list number :=
  match parts with
  | [] => []
  | Lit _ :: more => substituted more
  | Subst n :: more => n :: substituted more
  end.

Definition is_empty_message (v : vnode) : bool :=
  match v with
  | VElem _ _ _ [VText t] => String.eqb t "No updates yet"
  | _ => false
  end.

(** The cards of the updates page: the children of the last element of
    its body. *)
Definition cards (s : UpdatesPage.State) : list vnode :=
  match UpdatesPage.body s with
  | [_; _; VElem _ _ _ children] => children
  | _ => []
  end.

(** The [a] elements of a card, with their [href]. *)
Definition card_links (v : vnode) : list (option attr) :=
  match v with
  | VElem _ _ _ children =>
      map (fun c => match c with
                    | VElem _ _ props _ =>
                        option_map snd (nth_error props 3)
                    | _ => None
                    end)
          (filter (fun c => match c with
                            | VElem tag _ _ _ => String.eqb tag "a"
                            | _ => false
                            end) children)
  | _ => []
  end.

(** * Properties *)

(** ** Query parameters *)

(** The four guarded [params.set] calls never meet an existing name, so
    each one appends. *)
Lemma toQueryParameters_unfold (s : State) :
  toQueryParameters s =
    (param_if (negb (Category_eqb (category s) all))
              "category" (category_key (category s))
     ++ param_if (hasHot s) "has_hot" "true"
     ++ param_if (hasCold s) "has_cold" "true"
     ++ param_if (truthy_string (query s)) "q" (query s))%list.
Proof.
  unfold toQueryParameters.
  destruct s as [ps ld er ce ca hot cold q]; cbn [category hasHot hasCold query].
  destruct ca, hot, cold, q; reflexivity.
Qed.

Lemma Category_eqb_eq (a b : Category) : Category_eqb a b = true <-> a = b.
Proof. destruct a, b; cbv; split; intro H; try reflexivity; discriminate H. Qed.

Lemma Category_neqb (a b : Category) :
  negb (Category_eqb a b) = true <-> a <> b.
Proof.
  rewrite negb_true_iff, <- not_true_iff_false, Category_eqb_eq. tauto.
Qed.

Lemma truthy_string_nonempty (t : string) : truthy_string t = true <-> t <> "".
Proof.
  destruct t; cbn; split; intro H.
  - discriminate H.
  - now contradiction H.
  - discriminate.
  - reflexivity.
Qed.

Lemma In_param_if (b : bool) (n v n' v' : string) :
  In (n', v') (param_if b n v) <-> b = true /\ n' = n /\ v' = v.
Proof.
  destruct b; cbn.
  - split.
    + intros [H | []]. inversion H. auto.
    + intros (_ & -> & ->). now left.
  - split; [tauto | intros (H & _); discriminate H].
Qed.

(** Membership in the serialized parameters, one disjunct per guarded
    [params.set]. *)
Lemma In_toQueryParameters (s : State) (n v : string) :
  In (n, v) (toQueryParameters s) <->
    (category s <> all /\ n = "category" /\ v = category_key (category s))
    \/ (hasHot s = true /\ n = "has_hot" /\ v = "true")
    \/ (hasCold s = true /\ n = "has_cold" /\ v = "true")
    \/ (query s <> "" /\ n = "q" /\ v = query s).
Proof.
  rewrite toQueryParameters_unfold, !in_app_iff, !In_param_if.
  rewrite Category_neqb, truthy_string_nonempty. tauto.
Qed.

(** C2, as stated, fails: the default criteria serialize to a non-empty
    parameter list, because [hasCold] starts out [true]. *)
Lemma defaults_not_empty :
  default_criteria initial_state /\
  toQueryParameters initial_state <> URLSearchParams.empty.
Proof.
  split; [repeat split | discriminate].
Qed.

(** C2 (amended): for the default criteria (category [all], cold required,
    hot not required, empty text) the serialization is exactly the single
    parameter [has_cold=true]. *)
Theorem defaults_serialize_to_has_cold (s : State) :
  default_criteria s ->
  toQueryParameters s = [("has_cold", "true")].
Proof.
  intros (Hc & Hcold & Hhot & Hq).
  rewrite toQueryParameters_unfold, Hc, Hcold, Hhot, Hq.
  reflexivity.
Qed.

Lemma defaults_serialize_to_has_cold_witness :
  default_criteria initial_state /\
  toQueryParameters initial_state = [("has_cold", "true")].
Proof.
  split.
  - repeat split.
  - apply (defaults_serialize_to_has_cold initial_state). repeat split.
Defined.

(** C3: for every criteria value, [category=<key>] is among the parameters
    iff the category is not [all], [has_hot=true] iff [hasHot],
    [has_cold=true] iff [hasCold], [q=<text>] iff the text is non-empty,
    and no other parameter is present. *)
Theorem serialization_omits_exactly_defaults (s : State) :
  let params := toQueryParameters s in
  (forall v, In ("category", v) params <->
             category s <> all /\ v = category_key (category s)) /\
  (forall v, In ("has_hot", v) params <-> hasHot s = true /\ v = "true") /\
  (forall v, In ("has_cold", v) params <-> hasCold s = true /\ v = "true") /\
  (forall v, In ("q", v) params <-> query s <> "" /\ v = query s) /\
  (forall n v, In (n, v) params ->
               n = "category" \/ n = "has_hot" \/ n = "has_cold" \/ n = "q").
Proof.
  cbv zeta.
  pose proof (In_toQueryParameters s) as E.
  split; [| split; [| split; [| split]]].
  - intro v. rewrite E. split.
    + intros [(? & _ & ?) | [(_ & H & _) | [(_ & H & _) | (_ & H & _)]]];
        try discriminate H; auto.
    + intros [? ?]; intuition congruence.
  - intro v. rewrite E. split.
    + intros [(_ & H & _) | [(? & _ & ?) | [(_ & H & _) | (_ & H & _)]]];
        try discriminate H; auto.
    + intros [? ?]; intuition congruence.
  - intro v. rewrite E. split.
    + intros [(_ & H & _) | [(_ & H & _) | [(? & _ & ?) | (_ & H & _)]]];
        try discriminate H; auto.
    + intros [? ?]; intuition congruence.
  - intro v. rewrite E. split.
    + intros [(_ & H & _) | [(_ & H & _) | [(_ & H & _) | (? & _ & ?)]]];
        try discriminate H; auto.
    + intros [? ?]; intuition congruence.
  - intros n v H. apply E in H. tauto.
Qed.

Lemma serialization_omits_exactly_defaults_witness :
  In ("has_cold", "true") (toQueryParameters initial_state) /\
  ~ In ("category", "all") (toQueryParameters initial_state).
Proof.
  pose proof (serialization_omits_exactly_defaults initial_state)
    as (Hcat & _ & Hcold & _).
  split.
  - apply (proj2 (Hcold "true")). split; reflexivity.
  - intro H. apply (proj1 (Hcat "all")) in H. destruct H as [H _].
    apply H. reflexivity.
Defined.




(** ** Markers *)

(** C6, as stated, fails: a point with neither cold nor hot water still
    gets its water line, a [div] whose two water texts are empty. *)
Lemma water_line_rendered_without_water :
  existsb is_water_line (popup_lines (sample_point false false)) = true.
Proof. reflexivity. Qed.

(** C6 (amended): for every point record whose [has_cold] and [has_hot] are
    both false, the popup still contains the water line; it reads
    [Water: ] followed by an empty cold text, a space and an empty hot
    text. *)
Theorem water_line_empty_without_water (p : Partner.t) :
  Partner.has_cold p = false ->
  Partner.has_hot p = false ->
  filter is_water_line (popup_lines p)
    = [ VElem "div" None [className "text-xs"]
          [ VText "Water: "; VText ""; VText " "; VText "" ] ].
Proof.
  intros Hc Hh. unfold popup_lines. rewrite Hc, Hh.
  destruct (Partner.is_new p), (Partner.open_hours p) as [[|a h]|]; reflexivity.
Qed.

Lemma water_line_empty_without_water_witness :
  filter is_water_line (popup_lines (sample_point false false))
    = [ VElem "div" None [className "text-xs"]
          [ VText "Water: "; VText ""; VText " "; VText "" ] ].
Proof.
  apply (water_line_empty_without_water (sample_point false false));
    reflexivity.
Defined.

(** The marker list follows the record list position by position. *)
Lemma nth_error_markers (s : State) (i : nat) :
  nth_error (markers s) i = option_map marker (nth_error (partners s) i).
Proof. unfold markers. apply nth_error_map. Qed.

(** C7: [markers] is a function of the record list alone (two states with
    the same records give the same markers), it keeps length and order
    (the i-th marker is the marker of the i-th record), and every marker's
    key is its record's [id]. *)
Theorem markers_pure_order_preserving (s1 s2 : State) :
  (partners s1 = partners s2 -> markers s1 = markers s2) /\
  List.length (markers s1) = List.length (partners s1) /\
  (forall i, nth_error (markers s1) i
             = option_map marker (nth_error (partners s1) i)) /\
  (forall i p, nth_error (partners s1) i = Some p ->
               exists m, nth_error (markers s1) i = Some m /\
                         key_of m = Some (Partner.id p)) /\
  map key_of (markers s1) = map (fun p => Some (Partner.id p)) (partners s1).
Proof.
  split; [| split; [| split; [| split]]].
  - unfold markers. intros ->. reflexivity.
  - unfold markers. apply length_map.
  - intro i. apply nth_error_markers.
  - intros i p H. exists (marker p). rewrite nth_error_markers, H. split; reflexivity.
  - unfold markers. rewrite map_map. reflexivity.
Qed.

Lemma markers_pure_order_preserving_witness :
  let s := setPartners [point_A; point_B] initial_state in
  markers s = markers (setError "x" s) /\
  exists m, nth_error (markers s) 1 = Some m /\ key_of m = Some "b".
Proof.
  cbv zeta.
  pose proof (markers_pure_order_preserving
                (setPartners [point_A; point_B] initial_state)
                (setError "x" (setPartners [point_A; point_B] initial_state)))
    as (Hsame & _ & _ & Hkey & _).
  split.
  - apply Hsame. reflexivity.
  - apply (Hkey 1 point_B). reflexivity.
Defined.

(** ** Calls in flight *)

Lemma settle_at_pending (l : list Call) (i : nat) :
  pending l i = true -> exists l', settle_at i l = Some l'.
Proof.
  revert i. induction l as [|c l IH]; intros [|i] H; unfold pending in H;
    cbn in H; try discriminate H.
  - cbn. destruct (settled c); [discriminate H | eauto].
  - destruct (IH i H) as [l' E]. cbn. rewrite E. eauto.
Qed.

Lemma settle_at_only_pending (l l' : list Call) (i : nat) :
  settle_at i l = Some l' -> pending l i = true.
Proof.
  revert i l'. induction l as [|c l IH]; intros [|i] l' H; cbn in H;
    try discriminate H.
  - unfold pending. cbn. destruct (settled c); [discriminate H | reflexivity].
  - destruct (settle_at i l) as [r|] eqn:E; [| discriminate H].
    apply (IH i r E).
Qed.

Lemma settle_at_other (l l' : list Call) (i j : nat) :
  settle_at i l = Some l' -> j <> i -> nth_error l' j = nth_error l j.
Proof.
  revert i j l'. induction l as [|c l IH]; intros [|i] j l' H Hne; cbn in H;
    try discriminate H.
  - destruct (settled c); [discriminate H |]. injection H as <-.
    destruct j; [now contradiction Hne | reflexivity].
  - destruct (settle_at i l) as [r|] eqn:E; [| discriminate H].
    injection H as <-. destruct j; [reflexivity |].
    cbn. apply (IH i j r E). congruence.
Qed.

Lemma pending_other (l l' : list Call) (i j : nat) :
  settle_at i l = Some l' -> j <> i -> pending l' j = pending l j.
Proof.
  intros H Hne. unfold pending. rewrite (settle_at_other _ _ _ _ H Hne).
  reflexivity.
Qed.

Lemma settle_at_done (l l' : list Call) (i : nat) :
  settle_at i l = Some l' -> pending l' i = false.
Proof.
  revert i l'. induction l as [|c l IH]; intros [|i] l' H; cbn in H;
    try discriminate H.
  - destruct (settled c); [discriminate H |]. injection H as <-. reflexivity.
  - destruct (settle_at i l) as [r|] eqn:E; [| discriminate H].
    injection H as <-. apply (IH i r E).
Qed.

Lemma settle_at_length (l l' : list Call) (i : nat) :
  settle_at i l = Some l' -> List.length l' = List.length l.
Proof.
  revert i l'. induction l as [|c l IH]; intros [|i] l' H; cbn in H;
    try discriminate H.
  - destruct (settled c); [discriminate H |]. injection H as <-. reflexivity.
  - destruct (settle_at i l) as [r|] eqn:E; [| discriminate H].
    injection H as <-. cbn. f_equal. apply (IH i r E).
Qed.

(** A pending call can be settled, and the step runs [loadPartners]'s
    continuation on the current state. *)
Lemma step_Settle (w : World) (i : nat) (o : FetchOutcome) :
  in_flight w i = true ->
  exists l, settle_at i (calls w) = Some l /\
            step w (Settle i o)
              = Some (mkWorld (loadPartners_resume o (state w)) (view w) l).
Proof.
  intro H. destruct (settle_at_pending _ _ H) as [l E].
  exists l. split; [exact E |]. cbn. rewrite E. reflexivity.
Qed.

Lemma partners_resume_ok (o : FetchOutcome) (items : list Partner.t) (s : State) :
  try_block o = Some items ->
  partners (loadPartners_resume o s) = items /\
  error (loadPartners_resume o s) = error s.
Proof. unfold loadPartners_resume. intros ->. split; reflexivity. Qed.

Lemma partners_resume_fail (o : FetchOutcome) (s : State) :
  try_block o = None ->
  partners (loadPartners_resume o s) = partners s /\
  error (loadPartners_resume o s) = "Failed to load points".
Proof. unfold loadPartners_resume. intros ->. split; reflexivity. Qed.

(** ** Overlapping queries *)

(** C1, as stated, fails: when the response of the superseded query A
    arrives after the response of B, the displayed points are A's. *)
Lemma superseded_response_overwrites :
  exists w, run mount overlap_trace = Some w /\
            option_map request (nth_error (calls w) 1)
              = Some [("has_cold", "true"); ("q", "a")] /\
            option_map request (nth_error (calls w) 2)
              = Some [("has_cold", "true"); ("q", "b")] /\
            partners (state w) = [point_A] /\
            partners (state w) <> [point_B].
Proof.
  eexists. split; [reflexivity |].
  repeat split. cbn. intro H. discriminate H.
Qed.

(** C1 (amended): when query A is issued and query B is issued before A
    resolves, and both responses are successful, the displayed point set
    after both have arrived is the result of the response that arrived
    last: B's when A's response comes first, A's when B's comes first. *)
Theorem last_arrived_response_wins
        (w : World) (a b : nat) (oa ob : FetchOutcome)
        (ra rb : list Partner.t) :
  a < b ->
  in_flight w a = true ->
  in_flight w b = true ->
  try_block oa = Some ra ->
  try_block ob = Some rb ->
  (exists w', run w [Settle a oa; Settle b ob] = Some w' /\
              partners (state w') = rb) /\
  (exists w', run w [Settle b ob; Settle a oa] = Some w' /\
              partners (state w') = ra).
Proof.
  intros Hlt Ha Hb Hoa Hob.
  assert (Hab : a <> b) by lia.
  assert (Hba : b <> a) by lia.
  split.
  - destruct (step_Settle w a oa Ha) as (l & El & E1).
    set (w1 := mkWorld (loadPartners_resume oa (state w)) (view w) l) in *.
    assert (Hb1 : in_flight w1 b = true).
    { unfold in_flight. cbn [calls w1].
      rewrite (pending_other _ _ _ _ El Hba). exact Hb. }
    destruct (step_Settle w1 b ob Hb1) as (l2 & _ & E2).
    eexists. split.
    + cbn [run]. rewrite E1, E2. reflexivity.
    + cbn [state]. apply (partners_resume_ok ob rb _ Hob).
  - destruct (step_Settle w b ob Hb) as (l & El & E1).
    set (w1 := mkWorld (loadPartners_resume ob (state w)) (view w) l) in *.
    assert (Ha1 : in_flight w1 a = true).
    { unfold in_flight. cbn [calls w1].
      rewrite (pending_other _ _ _ _ El Hab). exact Ha. }
    destruct (step_Settle w1 a oa Ha1) as (l2 & _ & E2).
    eexists. split.
    + cbn [run]. rewrite E1, E2. reflexivity.
    + cbn [state]. apply (partners_resume_ok oa ra _ Hoa).
Qed.

Lemma last_arrived_response_wins_witness :
  let w := loadPartners_begin mount in
  (exists w', run w [Settle 0 (ok [point_A]); Settle 1 (ok [point_B])] = Some w' /\
              partners (state w') = [point_B]) /\
  (exists w', run w [Settle 1 (ok [point_B]); Settle 0 (ok [point_A])] = Some w' /\
              partners (state w') = [point_A]).
Proof.
  cbv zeta.
  apply (last_arrived_response_wins (loadPartners_begin mount) 0 1
           (ok [point_A]) (ok [point_B]) [point_A] [point_B]);
    [lia | reflexivity | reflexivity | reflexivity | reflexivity].
Defined.

(** ** Failed and successful responses *)

Lemma query_fails_cases (o : FetchOutcome) :
  query_fails o = true <->
    o = NetworkError
    \/ (exists status, o = Responded status NotJson)
    \/ (exists status, o = Responded status (Json JsonNull)).
Proof.
  split.
  - destruct o as [|status [|[|[items|]]]]; cbn; intro H;
      try discriminate H; eauto.
  - intros [-> | [[status ->] | [status ->]]]; reflexivity.
Qed.

(** C5: whenever a query in flight fails (the request is rejected, or the
    body cannot be decoded), the error banner is rendered with its message
    and the point set, hence the marker list, is what it was before. *)
Theorem failed_query_shows_error_keeps_points
        (w : World) (i : nat) (o : FetchOutcome) :
  in_flight w i = true ->
  o = NetworkError
  \/ (exists status, o = Responded status NotJson)
  \/ (exists status, o = Responded status (Json JsonNull)) ->
  exists w', step w (Settle i o) = Some w' /\
             error_banner (state w')
               = VElem "div" None [className "text-red-600 text-sm"]
                   [VText "Failed to load points"] /\
             partners (state w') = partners (state w) /\
             markers (state w') = markers (state w).
Proof.
  intros Hi Ho. apply query_fails_cases in Ho.
  assert (Ht : try_block o = None).
  { unfold query_fails in Ho. destruct (try_block o); [discriminate Ho | reflexivity]. }
  destruct (step_Settle w i o Hi) as (l & _ & E).
  eexists. split; [exact E |]. cbn [state].
  destruct (partners_resume_fail o (state w) Ht) as [Hp He].
  unfold error_banner, markers. rewrite He, Hp. repeat split.
Qed.

Lemma failed_query_shows_error_keeps_points_witness :
  exists w', step mount (Settle 0 (Responded 200 NotJson)) = Some w' /\
             error_banner (state w')
               = VElem "div" None [className "text-red-600 text-sm"]
                   [VText "Failed to load points"] /\
             partners (state w') = partners (state mount) /\
             markers (state w') = markers (state mount).
Proof.
  apply (failed_query_shows_error_keeps_points mount 0 (Responded 200 NotJson)).
  - reflexivity.
  - right. left. exists 200. reflexivity.
Defined.

Lemma error_update (f : State -> State) (w : World) :
  error (f (state w)) = "" -> error (state (update f w)) = "".
Proof.
  intro H. unfold update, render. cbn [state with_state].
  destruct (deps_changed (state w) (f (state w))); [reflexivity | exact H].
Qed.

(** No handler but the [catch] clause sets an error message. *)
Lemma step_keeps_no_error (w w' : World) (e : Event) :
  step w e = Some w' ->
  raises_error e = false ->
  error (state w) = "" ->
  error (state w') = "".
Proof.
  intros Hs Hr He. destruct e as [text| |c|b|b|g|v|i o]; cbn in Hs.
  - injection Hs as <-. apply error_update. exact He.
  - injection Hs as <-. reflexivity.
  - injection Hs as <-. apply error_update. exact He.
  - injection Hs as <-. apply error_update. exact He.
  - injection Hs as <-. apply error_update. exact He.
  - injection Hs as <-. destruct g as [| |lat lng]; cbn [onLocate]; try exact He.
    unfold Recenter. cbn [state]. apply error_update. exact He.
  - injection Hs as <-. exact He.
  - destruct (settle_at i (calls w)) as [l|]; [| discriminate Hs].
    injection Hs as <-. cbn [state]. cbn in Hr. unfold query_fails in Hr.
    destruct (try_block o) as [items|] eqn:Et; [| discriminate Hr].
    rewrite (proj2 (partners_resume_ok o items (state w) Et)). exact He.
Qed.

Lemma run_keeps_no_error (es : list Event) (w w' : World) :
  run w es = Some w' ->
  forallb (fun e => negb (raises_error e)) es = true ->
  error (state w) = "" ->
  error (state w') = "".
Proof.
  revert w. induction es as [|e es IH]; intros w Hr Hf He; cbn in Hr.
  - injection Hr as <-. exact He.
  - cbn in Hf. apply andb_true_iff in Hf. destruct Hf as [Hf1 Hf2].
    apply negb_true_iff in Hf1.
    destruct (step w e) as [w1|] eqn:Es; [| discriminate Hr].
    apply (IH w1 Hr Hf2). apply (step_keeps_no_error w w1 e Es Hf1 He).
Qed.

(** C10, as stated, fails on two inputs: a body [null] is JSON but the
    query is reported as failed; and a successful response leaves on
    screen the message of another query that failed while it was in
    flight. *)
Lemma json_body_may_show_error :
  (exists w, step mount (Settle 0 (Responded 200 (Json JsonNull))) = Some w /\
             error (state w) = "Failed to load points") /\
  (exists w, run mount [ClickSearch; Settle 0 NetworkError;
                        Settle 1 (Responded 200 (Json (JsonValue (Some [point_A]))))]
               = Some w /\
             partners (state w) = [point_A] /\
             error (state w) = "Failed to load points").
Proof.
  split; eexists; (split; [reflexivity |]); repeat split.
Qed.

(** C10 (amended): for every response whose body parses as a JSON value
    of the endpoint's shape other than [null] (its [items] a list of point
    records, or absent), whatever the HTTP status, the point set is wholly
    replaced by the body's [items] list (the empty list when [items] is
    absent), loading ends, and the response sets no error: the error text
    stays what it was, so no message is shown when no query has failed
    since this one was issued. *)
Theorem json_value_replaces_points_any_status :
  (forall (w : World) (i status : nat) (items : option (list Partner.t)),
      in_flight w i = true ->
      exists w',
        step w (Settle i (Responded status (Json (JsonValue items)))) = Some w' /\
        partners (state w') = match items with Some l => l | None => [] end /\
        error (state w') = error (state w) /\
        loading (state w') = false) /\
  (forall (w w1 : World) (es : list Event) (status : nat)
          (items : option (list Partner.t)),
      run (loadPartners_begin w) es = Some w1 ->
      forallb (fun e => negb (raises_error e)) es = true ->
      in_flight w1 (List.length (calls w)) = true ->
      exists w',
        step w1 (Settle (List.length (calls w))
                        (Responded status (Json (JsonValue items)))) = Some w' /\
        partners (state w') = match items with Some l => l | None => [] end /\
        error_banner (state w') = VText "").
Proof.
  assert (G : forall (w : World) (i status : nat) (items : option (list Partner.t)),
             in_flight w i = true ->
             exists w',
               step w (Settle i (Responded status (Json (JsonValue items)))) = Some w' /\
               partners (state w') = match items with Some l => l | None => [] end /\
               error (state w') = error (state w) /\
               loading (state w') = false).
  { intros w i status items Hi.
    destruct (step_Settle w i (Responded status (Json (JsonValue items))) Hi)
      as (l & _ & E).
    eexists. split; [exact E |]. cbn [state].
    destruct items; repeat split. }
  split; [exact G |].
  intros w w1 es status items Hr Hf Hi.
  destruct (G w1 _ status items Hi) as (w' & Es & Hp & He & _).
  exists w'. split; [exact Es |]. split; [exact Hp |].
  unfold error_banner. rewrite He.
  rewrite (run_keeps_no_error es (loadPartners_begin w) w1 Hr Hf eq_refl).
  reflexivity.
Qed.

Lemma json_value_replaces_points_any_status_witness :
  (exists w',
      step mount (Settle 0 (Responded 500 (Json (JsonValue (Some [point_A])))))
        = Some w' /\
      partners (state w') = [point_A] /\
      error (state w') = "" /\
      loading (state w') = false) /\
  (exists w',
      step (update (setQuery "a") mount)
           (Settle 0 (Responded 404 (Json (JsonValue None)))) = Some w' /\
      partners (state w') = [] /\
      error_banner (state w') = VText "").
Proof.
  split.
  - apply (proj1 json_value_replaces_points_any_status mount 0 500
                 (Some [point_A])).
    reflexivity.
  - apply (proj2 json_value_replaces_points_any_status
                 (Recenter (mkWorld initial_state
                              (mkViewport (center initial_state) 12%float) []))
                 (update (setQuery "a") mount) [InputQuery "a"] 404 None);
      reflexivity.
Defined.

(** ** Re-query policy *)

Lemma Category_eqb_refl (c : Category) : Category_eqb c c = true.
Proof. destruct c; reflexivity. Qed.

Lemma calls_update (f : State -> State) (w : World) :
  calls (update f w)
    = if deps_changed (state w) (f (state w))
      then (calls w ++ [mkCall (toQueryParameters (f (state w))) false])%list
      else calls w.
Proof.
  unfold update, render. cbn [state with_state].
  destruct (deps_changed (state w) (f (state w))); reflexivity.
Qed.

Lemma state_update (f : State -> State) (w : World) :
  state (update f w)
    = if deps_changed (state w) (f (state w))
      then setError "" (setLoading true (f (state w)))
      else f (state w).
Proof.
  unfold update, render. cbn [state with_state].
  destruct (deps_changed (state w) (f (state w))); reflexivity.
Qed.

Lemma deps_unchanged (s s' : State) :
  category s' = category s -> hasHot s' = hasHot s -> hasCold s' = hasCold s ->
  deps_changed s s' = false.
Proof.
  intros Hc Hh Hk. unfold deps_changed. rewrite Hc, Hh, Hk.
  rewrite Category_eqb_refl, !Bool.eqb_reflx. reflexivity.
Qed.

Lemma get_q (s : State) :
  URLSearchParams.get "q" (toQueryParameters s)
    = if truthy_string (query s) then Some (query s) else None.
Proof.
  rewrite toQueryParameters_unfold.
  destruct (category s), (hasHot s), (hasCold s), (query s); reflexivity.
Qed.

Lemma deps_setCategory (s : State) (c : Category) :
  deps_changed s (setCategory c s) = negb (Category_eqb (category s) c).
Proof.
  unfold deps_changed. cbn [category hasHot hasCold setCategory].
  rewrite !Bool.eqb_reflx, !orb_false_r. reflexivity.
Qed.

Lemma deps_setHasCold (s : State) (b : bool) :
  deps_changed s (setHasCold b s) = negb (Bool.eqb (hasCold s) b).
Proof.
  unfold deps_changed. cbn [category hasHot hasCold setHasCold].
  rewrite Category_eqb_refl, Bool.eqb_reflx. reflexivity.
Qed.

Lemma deps_setHasHot (s : State) (b : bool) :
  deps_changed s (setHasHot b s) = negb (Bool.eqb (hasHot s) b).
Proof.
  unfold deps_changed. cbn [category hasHot hasCold setHasHot].
  rewrite Category_eqb_refl, Bool.eqb_reflx, orb_false_r. reflexivity.
Qed.

Lemma settle_at_requests (l l' : list Call) (i : nat) :
  settle_at i l = Some l' -> map request l' = map request l.
Proof.
  revert i l'. induction l as [|c l IH]; intros [|i] l' H; cbn in H;
    try discriminate H.
  - destruct (settled c); [discriminate H |]. injection H as <-. reflexivity.
  - destruct (settle_at i l) as [r|] eqn:E; [| discriminate H].
    injection H as <-. cbn. f_equal. apply (IH i r E).
Qed.

(** What a step does to the list of requests: the ones already sent stay
    as they are, and an event that re-queries adds one, the serialization
    of the criteria held after the event. *)
Lemma step_requests (w w' : World) (e : Event) :
  step w e = Some w' ->
  map request (calls w')
    = (map request (calls w)
       ++ (if requeries w e then [toQueryParameters (state w')] else []))%list.
Proof.
  intro Hs. destruct e as [text| |c|b|b|g|v|i o]; cbn in Hs.
  - injection Hs as <-. rewrite calls_update, deps_unchanged by reflexivity.
    cbn [requeries]. rewrite app_nil_r. reflexivity.
  - injection Hs as <-. cbn [calls loadPartners_begin requeries].
    rewrite map_app. reflexivity.
  - injection Hs as <-. rewrite calls_update, state_update, deps_setCategory.
    cbn [requeries].
    destruct (negb (Category_eqb (category (state w)) c));
      [rewrite map_app | rewrite app_nil_r]; reflexivity.
  - injection Hs as <-. rewrite calls_update, state_update, deps_setHasCold.
    cbn [requeries].
    destruct (negb (Bool.eqb (hasCold (state w)) b));
      [rewrite map_app | rewrite app_nil_r]; reflexivity.
  - injection Hs as <-. rewrite calls_update, state_update, deps_setHasHot.
    cbn [requeries].
    destruct (negb (Bool.eqb (hasHot (state w)) b));
      [rewrite map_app | rewrite app_nil_r]; reflexivity.
  - injection Hs as <-. cbn [requeries]. rewrite app_nil_r.
    destruct g as [| |lat lng]; cbn [onLocate]; try reflexivity.
    unfold Recenter. cbn [calls].
    rewrite calls_update, deps_unchanged by reflexivity. reflexivity.
  - injection Hs as <-. cbn [requeries calls]. rewrite app_nil_r. reflexivity.
  - destruct (settle_at i (calls w)) as [l|] eqn:E; [| discriminate Hs].
    injection Hs as <-. cbn [requeries calls]. rewrite app_nil_r.
    apply (settle_at_requests _ _ _ E).
Qed.

(** The number of calls grows by one exactly on the events that re-query. *)
Lemma step_calls_length (w w' : World) (e : Event) :
  step w e = Some w' ->
  List.length (calls w')
    = List.length (calls w) + (if requeries w e then 1 else 0).
Proof.
  intro Hs. destruct e as [text| |c|b|b|g|v|i o]; cbn in Hs.
  - injection Hs as <-. rewrite calls_update, deps_unchanged by reflexivity.
    cbn. lia.
  - injection Hs as <-. cbn. rewrite length_app. reflexivity.
  - injection Hs as <-. rewrite calls_update. unfold deps_changed, requeries.
    cbn [category hasHot hasCold setCategory].
    rewrite !Bool.eqb_reflx, !orb_false_r.
    destruct (negb (Category_eqb (category (state w)) c));
      rewrite ?length_app; cbn; lia.
  - injection Hs as <-. rewrite calls_update. unfold deps_changed, requeries.
    cbn [category hasHot hasCold setHasCold].
    rewrite Category_eqb_refl, !Bool.eqb_reflx. cbn [negb orb].
    destruct (negb (Bool.eqb (hasCold (state w)) b));
      rewrite ?length_app; cbn; lia.
  - injection Hs as <-. rewrite calls_update. unfold deps_changed, requeries.
    cbn [category hasHot hasCold setHasHot].
    rewrite Category_eqb_refl, !Bool.eqb_reflx, orb_false_r. cbn [negb orb].
    destruct (negb (Bool.eqb (hasHot (state w)) b));
      rewrite ?length_app; cbn; lia.
  - injection Hs as <-. destruct g as [| |lat lng]; cbn [onLocate requeries];
      try lia.
    unfold Recenter. cbn [calls].
    rewrite calls_update, deps_unchanged by reflexivity. lia.
  - injection Hs as <-. cbn. lia.
  - destruct (settle_at i (calls w)) as [l|] eqn:E; [| discriminate Hs].
    injection Hs as <-. cbn. rewrite (settle_at_length _ _ _ E). lia.
Qed.

(** C8, as stated, fails in its last part: after typing a text, a category
    click alone starts a query that carries the typed text, with no search
    action in the run. *)
Lemma filter_change_sends_current_text :
  exists w, run mount [InputQuery "abc"; ClickCategory shop] = Some w /\
            calls w = [ mkCall [("has_cold", "true")] false;
                        mkCall [("category", "shop"); ("has_cold", "true");
                                ("q", "abc")] false ].
Proof. eexists. split; reflexivity. Qed.

(** C8 (amended): a click that changes the category, or a change of either
    checkbox, at once starts a query with the new criteria, the current
    text included; typing in the search box only stores the text and
    starts nothing; the search button starts a query with the current
    criteria, text included; and these are all the queries there are:
    every event adds exactly one call when it is the search button or an
    effective category or checkbox change, and none otherwise, the
    requests sent before staying as they are and the new one being the
    serialization of the criteria held after the event. *)
Theorem requery_policy (w : World) :
  (forall c, c <> category (state w) ->
     exists w', step w (ClickCategory c) = Some w' /\
                category (state w') = c /\
                calls w' = (calls w ++
                  [mkCall (toQueryParameters (setCategory c (state w))) false])%list) /\
  (forall b, b <> hasCold (state w) ->
     exists w', step w (CheckCold b) = Some w' /\
                hasCold (state w') = b /\
                calls w' = (calls w ++
                  [mkCall (toQueryParameters (setHasCold b (state w))) false])%list) /\
  (forall b, b <> hasHot (state w) ->
     exists w', step w (CheckHot b) = Some w' /\
                hasHot (state w') = b /\
                calls w' = (calls w ++
                  [mkCall (toQueryParameters (setHasHot b (state w))) false])%list) /\
  (forall text,
     exists w', step w (InputQuery text) = Some w' /\
                query (state w') = text /\
                calls w' = calls w) /\
  (exists w', step w ClickSearch = Some w' /\
              calls w' = (calls w ++
                [mkCall (toQueryParameters (state w)) false])%list /\
              URLSearchParams.get "q" (toQueryParameters (state w))
                = if truthy_string (query (state w))
                  then Some (query (state w)) else None) /\
  (forall e w', step w e = Some w' ->
     List.length (calls w')
       = List.length (calls w) + (if requeries w e then 1 else 0) /\
     map request (calls w')
       = (map request (calls w)
          ++ (if requeries w e then [toQueryParameters (state w')] else []))%list) /\
  (forall c b,
     let sent := if truthy_string (query (state w))
                 then Some (query (state w)) else None in
     URLSearchParams.get "q" (toQueryParameters (setCategory c (state w))) = sent /\
     URLSearchParams.get "q" (toQueryParameters (setHasCold b (state w))) = sent /\
     URLSearchParams.get "q" (toQueryParameters (setHasHot b (state w))) = sent).
Proof.
  split; [| split; [| split; [| split; [| split; [| split]]]]].
  - intros c Hc. eexists. split; [reflexivity |].
    assert (D : deps_changed (state w) (setCategory c (state w)) = true).
    { unfold deps_changed. cbn [category setCategory].
      destruct (Category_eqb (category (state w)) c) eqn:E; [| reflexivity].
      apply Category_eqb_eq in E. congruence. }
    rewrite state_update, calls_update, D. split; reflexivity.
  - intros b Hb. eexists. split; [reflexivity |].
    assert (D : deps_changed (state w) (setHasCold b (state w)) = true).
    { unfold deps_changed. cbn [category hasHot hasCold setHasCold].
      destruct (hasCold (state w)), b; try (now contradiction Hb);
        rewrite ?orb_true_r; reflexivity. }
    rewrite state_update, calls_update, D. split; reflexivity.
  - intros b Hb. eexists. split; [reflexivity |].
    assert (D : deps_changed (state w) (setHasHot b (state w)) = true).
    { unfold deps_changed. cbn [category hasHot hasCold setHasHot].
      destruct (hasHot (state w)), b; try (now contradiction Hb);
        rewrite ?orb_true_r; reflexivity. }
    rewrite state_update, calls_update, D. split; reflexivity.
  - intro text. eexists. split; [reflexivity |].
    rewrite state_update, calls_update, deps_unchanged by reflexivity.
    split; reflexivity.
  - eexists. split; [reflexivity |]. split; [reflexivity | apply get_q].
  - intros e w' Hs. split.
    + apply (step_calls_length w w' e Hs).
    + apply (step_requests w w' e Hs).
  - intros c b. cbv zeta. rewrite !get_q. repeat split.
Qed.

Lemma requery_policy_witness :
  (exists w', step mount (ClickCategory cafe) = Some w' /\
              category (state w') = cafe /\
              calls w' = [mkCall [("has_cold", "true")] false;
                          mkCall [("category", "cafe"); ("has_cold", "true")] false]) /\
  (exists w', step mount (InputQuery "lenina") = Some w' /\
              query (state w') = "lenina" /\
              calls w' = calls mount) /\
  (List.length (calls (loadPartners_begin (update (setQuery "lenina") mount))) = 2 /\
   map request (calls (loadPartners_begin (update (setQuery "lenina") mount)))
     = [ [("has_cold", "true")]; [("has_cold", "true"); ("q", "lenina")] ]) /\
  (List.length (calls (update (setCategory all) mount)) = 1 /\
   map request (calls (update (setCategory all) mount))
     = [ [("has_cold", "true")] ]).
Proof.
  split; [| split; [| split]].
  - apply (proj1 (requery_policy mount) cafe). discriminate.
  - apply (proj1 (proj2 (proj2 (proj2 (requery_policy mount)))) "lenina").
  - apply (proj1 (proj2 (proj2 (proj2 (proj2 (proj2
             (requery_policy (update (setQuery "lenina") mount)))))))
             ClickSearch (loadPartners_begin (update (setQuery "lenina") mount))).
    reflexivity.
  - apply (proj1 (proj2 (proj2 (proj2 (proj2 (proj2 (requery_policy mount))))))
             (ClickCategory all) (update (setCategory all) mount)).
    reflexivity.
Defined.

(** ** Geolocation *)

(** C9: a successful geolocation request stores the returned coordinates
    as the center and sets the map view to them at zoom 13, whatever the
    view was (after mounting it is the default center at zoom 13); a
    request that fails, or with no geolocation capability, leaves the whole
    page as it was, error text included. *)
Theorem locate_recenters_or_does_nothing (w : World) (lat lng : number) :
  view mount = mkViewport (center initial_state) 13%float /\
  (exists w', step w (ClickLocate (Position lat lng)) = Some w' /\
              center (state w') = (lat, lng) /\
              view w' = mkViewport (lat, lng) 13%float /\
              error (state w') = error (state w) /\
              partners (state w') = partners (state w) /\
              calls w' = calls w) /\
  step w (ClickLocate PositionError) = Some w /\
  step w (ClickLocate Unavailable) = Some w.
Proof.
  split; [reflexivity |]. split; [| split; reflexivity].
  eexists. split; [reflexivity |].
  cbn [onLocate]. unfold Recenter. cbn [state view calls].
  rewrite state_update, calls_update, deps_unchanged by reflexivity.
  repeat split.
Qed.

(** * Further properties of the component *)

(** ** Reading the criteria back from the parameters *)

Lemma get_category (s : State) :
  URLSearchParams.get "category" (toQueryParameters s)
    = if Category_eqb (category s) all then None
      else Some (category_key (category s)).
Proof.
  rewrite toQueryParameters_unfold.
  destruct (category s), (hasHot s), (hasCold s), (query s); reflexivity.
Qed.

Lemma has_has_hot (s : State) :
  URLSearchParams.has "has_hot" (toQueryParameters s) = hasHot s.
Proof.
  rewrite toQueryParameters_unfold.
  destruct (category s), (hasHot s), (hasCold s), (query s); reflexivity.
Qed.

Lemma has_has_cold (s : State) :
  URLSearchParams.has "has_cold" (toQueryParameters s) = hasCold s.
Proof.
  rewrite toQueryParameters_unfold.
  destruct (category s), (hasHot s), (hasCold s), (query s); reflexivity.
Qed.

(** X1: the serialization loses nothing: two states that send the same
    parameters hold the same criteria. *)
Theorem toQueryParameters_injective (s1 s2 : State) :
  toQueryParameters s1 = toQueryParameters s2 ->
  criteria s1 = criteria s2.
Proof.
  intro H. unfold criteria.
  assert (Hc : category s1 = category s2).
  { pose proof (get_category s1) as H1. pose proof (get_category s2) as H2.
    rewrite H in H1. rewrite H1 in H2.
    destruct (category s1), (category s2); cbn in H2;
      try reflexivity; discriminate H2. }
  assert (Hh : hasHot s1 = hasHot s2)
    by (rewrite <- (has_has_hot s1), <- (has_has_hot s2), H; reflexivity).
  assert (Hk : hasCold s1 = hasCold s2)
    by (rewrite <- (has_has_cold s1), <- (has_has_cold s2), H; reflexivity).
  assert (Hq : query s1 = query s2).
  { pose proof (get_q s1) as H1. pose proof (get_q s2) as H2.
    rewrite H in H1. rewrite H1 in H2.
    destruct (query s1), (query s2); cbn in H2;
      try reflexivity; try discriminate H2.
    injection H2 as -> ->. reflexivity. }
  rewrite Hc, Hh, Hk, Hq. reflexivity.
Qed.

Lemma toQueryParameters_injective_witness :
  criteria (setError "x" (setHasHot true initial_state))
    = criteria (setHasHot true initial_state).
Proof.
  apply (toQueryParameters_injective
           (setError "x" (setHasHot true initial_state))
           (setHasHot true initial_state)).
  reflexivity.
Defined.

(** X2: the parameters always come in the order category, has_hot,
    has_cold, q, each name at most once. *)
Theorem toQueryParameters_order (s : State) :
  map fst (toQueryParameters s)
    = filter (fun n => URLSearchParams.has n (toQueryParameters s))
             ["category"; "has_hot"; "has_cold"; "q"] /\
  NoDup (map fst (toQueryParameters s)).
Proof.
  rewrite toQueryParameters_unfold.
  destruct (category s), (hasHot s), (hasCold s), (query s);
    (split; [reflexivity |]);
    cbn; repeat constructor; cbn; intuition discriminate.
Qed.

(** X20: a request carries no parameter at all exactly when nothing is
    filtered: category [all], both checkboxes off and an empty text. *)
Theorem unfiltered_iff_no_parameters (s : State) :
  toQueryParameters s = [] <->
  criteria s = (all, false, false, "").
Proof.
  rewrite toQueryParameters_unfold. unfold criteria.
  destruct (category s), (hasHot s), (hasCold s), (query s); cbn;
    split; intro H; try discriminate H; reflexivity.
Qed.

Lemma unfiltered_iff_no_parameters_witness :
  toQueryParameters (setHasCold false initial_state) = [].
Proof.
  apply (proj2 (unfiltered_iff_no_parameters (setHasCold false initial_state))).
  reflexivity.
Defined.

(** ** The popup of a marker *)

(** X3: the opening hours line is in the popup exactly when the record
    has a non-empty [open_hours], and then it shows that text; the "new"
    badge is in the name line exactly when [is_new] holds. *)
Theorem popup_optional_parts (p : Partner.t) :
  filter is_hours_line (popup_lines p)
    = match Partner.open_hours p with
      | Some (String a h) =>
          [ VElem "div" None [className "text-xs"]
              [VText "Hours: "; VText (String a h)] ]
      | _ => []
      end /\
  existsb is_span (name_line_children p) = Partner.is_new p.
Proof.
  unfold name_line_children, popup_lines.
  destruct (Partner.is_new p), (Partner.open_hours p) as [[|a h]|];
    split; reflexivity.
Qed.

(** X4: the access line reads [free] only for the access type [free];
    every other value, [ask_staff] or not, reads [ask staff]. *)
Theorem access_label (p : Partner.t) :
  (Partner.access_type p = "free" ->
   line_after "Access: " (popup_lines p) = Some [VText "free"]) /\
  (Partner.access_type p <> "free" ->
   line_after "Access: " (popup_lines p) = Some [VText "ask staff"]).
Proof.
  unfold popup_lines.
  destruct (String.eqb_spec (Partner.access_type p) "free") as [E | E];
    (split; intro H; [| try (now contradiction H)]);
    try (now contradiction E);
    destruct (Partner.is_new p), (Partner.open_hours p) as [[|a h]|];
    reflexivity.
Qed.

Lemma access_label_witness :
  line_after "Access: " (popup_lines point_A) = Some [VText "free"] /\
  line_after "Access: " (popup_lines point_B) = Some [VText "ask staff"].
Proof.
  split.
  - apply (proj1 (access_label point_A)). reflexivity.
  - apply (proj2 (access_label point_B)). discriminate.
Defined.

(** X5: the directions link of a marker leads to the marker's own
    position: the numbers put into the link are the latitude and longitude
    of the [position] attribute, in that order. *)
Theorem directions_lead_to_marker (p : Partner.t) :
  exists lat lng parts,
    position_of (marker p) = Some (lat, lng) /\
    href_of (popup_lines p) = Some (ATemplate parts) /\
    substituted parts = [lat; lng] /\
    lat = Partner.latitude p /\ lng = Partner.longitude p.
Proof.
  exists (Partner.latitude p), (Partner.longitude p).
  exists [ Lit "https://www.google.com/maps/dir/?api=1&destination=";
           Subst (Partner.latitude p); Lit ","; Subst (Partner.longitude p) ].
  split; [reflexivity |]. split; [| repeat split].
  unfold popup_lines.
  destruct (Partner.is_new p), (Partner.open_hours p) as [[|a h]|];
    reflexivity.
Qed.

Lemma NoDup_map_Some (l : list string) : NoDup (map Some l) <-> NoDup l.
Proof.
  induction l as [|x l IH]; cbn.
  - split; intros _; constructor.
  - split; intro H; inversion H as [|y r Hin Hnd]; subst; constructor.
    + intro Hx. apply Hin. apply in_map. exact Hx.
    + apply IH. exact Hnd.
    + intro Hx. apply in_map_iff in Hx. destruct Hx as (y & Hy & Hx).
      injection Hy as ->. apply Hin. exact Hx.
    + apply IH. exact Hnd.
Qed.

(** X6: the markers' keys are pairwise distinct exactly when the records'
    ids are. *)
Theorem marker_keys_unique (s : State) :
  NoDup (map key_of (markers s)) <-> NoDup (map Partner.id (partners s)).
Proof.
  unfold markers. rewrite map_map.
  assert (E : map (fun p => key_of (marker p)) (partners s)
              = map Some (map Partner.id (partners s)))
    by (rewrite map_map; reflexivity).
  rewrite E. apply NoDup_map_Some.
Qed.

Lemma marker_keys_unique_witness :
  NoDup (map key_of (markers (setPartners [point_A; point_B] initial_state))).
Proof.
  apply (proj2 (marker_keys_unique
                  (setPartners [point_A; point_B] initial_state))).
  cbn. repeat constructor; cbn; intuition discriminate.
Defined.

(** ** What one event changes *)

Lemma view_update (f : State -> State) (w : World) :
  view (update f w) = view w.
Proof.
  unfold update, render. cbn [state with_state].
  destruct (deps_changed (state w) (f (state w))); reflexivity.
Qed.

(** X7: the error text after any event: it is cleared when the event
    starts a query, it becomes the failure message when the event is a
    failed response, and otherwise it stays what it was.  So the message
    of a failed query stays on screen, through successful responses too,
    until the next query starts. *)
Theorem error_after_event (w w' : World) (e : Event) :
  step w e = Some w' ->
  error (state w')
    = if requeries w e then ""
      else if raises_error e then "Failed to load points"
           else error (state w).
Proof.
  intro Hs. destruct e as [text| |c|b|b|g|v|i o]; cbn in Hs.
  - injection Hs as <-. rewrite state_update, deps_unchanged by reflexivity.
    reflexivity.
  - injection Hs as <-. reflexivity.
  - injection Hs as <-. rewrite state_update, deps_setCategory.
    cbn [requeries raises_error].
    destruct (negb (Category_eqb (category (state w)) c)); reflexivity.
  - injection Hs as <-. rewrite state_update, deps_setHasCold.
    cbn [requeries raises_error].
    destruct (negb (Bool.eqb (hasCold (state w)) b)); reflexivity.
  - injection Hs as <-. rewrite state_update, deps_setHasHot.
    cbn [requeries raises_error].
    destruct (negb (Bool.eqb (hasHot (state w)) b)); reflexivity.
  - injection Hs as <-. destruct g as [| |lat lng]; cbn [onLocate requeries raises_error];
      try reflexivity.
    unfold Recenter. cbn [state].
    rewrite state_update, deps_unchanged by reflexivity. reflexivity.
  - injection Hs as <-. reflexivity.
  - destruct (settle_at i (calls w)) as [l|]; [| discriminate Hs].
    injection Hs as <-. cbn [state requeries raises_error].
    unfold query_fails, loadPartners_resume.
    destruct (try_block o); reflexivity.
Qed.

Lemma error_after_event_witness :
  error (state (loadPartners_begin mount)) = "".
Proof.
  apply (error_after_event mount (loadPartners_begin mount) ClickSearch).
  reflexivity.
Defined.

(** X8: the displayed points change only when a successful response
    arrives: every other event, a failed response and the start of a new
    query included, leaves the point set and the markers as they are. *)
Theorem points_kept_unless_replaced (w w' : World) (e : Event) :
  step w e = Some w' ->
  replaces_points e = false ->
  partners (state w') = partners (state w) /\
  markers (state w') = markers (state w).
Proof.
  intros Hs Hr.
  assert (H : partners (state w') = partners (state w)).
  { destruct e as [text| |c|b|b|g|v|i o]; cbn in Hs.
    - injection Hs as <-. rewrite state_update.
      destruct (deps_changed _ _); reflexivity.
    - injection Hs as <-. reflexivity.
    - injection Hs as <-. rewrite state_update.
      destruct (deps_changed _ _); reflexivity.
    - injection Hs as <-. rewrite state_update.
      destruct (deps_changed _ _); reflexivity.
    - injection Hs as <-. rewrite state_update.
      destruct (deps_changed _ _); reflexivity.
    - injection Hs as <-. destruct g as [| |lat lng]; cbn [onLocate];
        try reflexivity.
      unfold Recenter. cbn [state]. rewrite state_update.
      destruct (deps_changed _ _); reflexivity.
    - injection Hs as <-. reflexivity.
    - destruct (settle_at i (calls w)) as [l|]; [| discriminate Hs].
      injection Hs as <-. cbn [state]. cbn in Hr. unfold query_fails in Hr.
      destruct (try_block o) as [items|] eqn:Et; [discriminate Hr |].
      apply (partners_resume_fail o (state w) Et). }
  split; [exact H |]. unfold markers. rewrite H. reflexivity.
Qed.

Lemma points_kept_unless_replaced_witness :
  markers (state (loadPartners_begin mount)) = markers (state mount).
Proof.
  apply (points_kept_unless_replaced mount (loadPartners_begin mount) ClickSearch);
    reflexivity.
Defined.

Lemma step_keeps_map (w w' : World) (e : Event) :
  step w e = Some w' ->
  moves_map e = false ->
  view w' = view w /\ center (state w') = center (state w).
Proof.
  intros Hs Hm. destruct e as [text| |c|b|b|g|v|i o]; cbn in Hs;
    try discriminate Hm.
  - injection Hs as <-. rewrite view_update, state_update.
    destruct (deps_changed _ _); split; reflexivity.
  - injection Hs as <-. split; reflexivity.
  - injection Hs as <-. rewrite view_update, state_update.
    destruct (deps_changed _ _); split; reflexivity.
  - injection Hs as <-. rewrite view_update, state_update.
    destruct (deps_changed _ _); split; reflexivity.
  - injection Hs as <-. rewrite view_update, state_update.
    destruct (deps_changed _ _); split; reflexivity.
  - injection Hs as <-. destruct g as [| |lat lng];
      [split; reflexivity | split; reflexivity | discriminate Hm].
  - destruct (settle_at i (calls w)) as [l|]; [| discriminate Hs].
    injection Hs as <-. cbn [state view]. unfold loadPartners_resume.
    destruct (try_block o); split; reflexivity.
Qed.


(** X9: the map moves only when the user moves it or a position is
    delivered: after a map move the view is the one the user chose, after
    a delivered position it is that position at zoom 13, and after every
    other event (filter changes, searches, responses) the view and the
    [center] cell are what they were, so new results never re-center the
    map. *)
Theorem map_kept_unless_moved (w w' : World) (e : Event) :
  step w e = Some w' ->
  view w' = match e with
            | MoveMap v => v
            | ClickLocate (Position lat lng) => mkViewport (lat, lng) 13%float
            | _ => view w
            end /\
  center (state w') = match e with
                      | ClickLocate (Position lat lng) => (lat, lng)
                      | _ => center (state w)
                      end.
Proof.
  intro Hs. destruct (moves_map e) eqn:Em.
  - destruct e as [text| |c|b|b|g|v|i o]; try discriminate Em.
    + destruct g as [| |lat lng]; try discriminate Em.
      cbn in Hs. injection Hs as <-. unfold Recenter. cbn [state view].
      rewrite state_update, deps_unchanged by reflexivity. split; reflexivity.
    + cbn in Hs. injection Hs as <-. split; reflexivity.
  - destruct (step_keeps_map w w' e Hs Em) as [Hv Hc].
    destruct e as [text| |c|b|b|g|v|i o]; try discriminate Em;
      try (split; assumption).
    destruct g as [| |lat lng]; try discriminate Em; split; assumption.
Qed.

Lemma map_kept_unless_moved_witness :
  exists w', step mount (Settle 0 (ok [point_A])) = Some w' /\
             view w' = view mount /\ center (state w') = center (state mount).
Proof.
  eexists. split; [reflexivity |].
  apply (map_kept_unless_moved mount _ (Settle 0 (ok [point_A]))).
  reflexivity.
Defined.

(** X10: the criteria change only through the four filter controls:
    the search button, the locate button, map moves and responses of any
    kind leave category, hot, cold and text as they are. *)
Theorem criteria_kept_unless_edited (w w' : World) (e : Event) :
  step w e = Some w' ->
  edits_criteria e = false ->
  criteria (state w') = criteria (state w).
Proof.
  intros Hs He. destruct e as [text| |c|b|b|g|v|i o]; cbn in Hs;
    try discriminate He.
  - injection Hs as <-. reflexivity.
  - injection Hs as <-. destruct g as [| |lat lng]; cbn [onLocate];
      try reflexivity.
    unfold Recenter. cbn [state]. rewrite state_update.
    destruct (deps_changed _ _); reflexivity.
  - injection Hs as <-. reflexivity.
  - destruct (settle_at i (calls w)) as [l|]; [| discriminate Hs].
    injection Hs as <-. cbn [state]. unfold loadPartners_resume.
    destruct (try_block o); reflexivity.
Qed.

Lemma criteria_kept_unless_edited_witness :
  exists w', step mount (Settle 0 NetworkError) = Some w' /\
             criteria (state w') = criteria (state mount).
Proof.
  eexists. split; [reflexivity |].
  apply (criteria_kept_unless_edited mount _ (Settle 0 NetworkError));
    reflexivity.
Defined.

(** ** Invariants of a run *)

(** A property kept by every step is kept by every run. *)
Lemma run_invariant (P : World -> Prop) :
  (forall w e w', P w -> step w e = Some w' -> P w') ->
  forall es w w', P w -> run w es = Some w' -> P w'.
Proof.
  intros Hstep es. induction es as [|e es IH]; intros w w' Hw Hr; cbn in Hr.
  - injection Hr as <-. exact Hw.
  - destruct (step w e) as [w1|] eqn:Es; [| discriminate Hr].
    apply (IH w1 w' (Hstep w e w1 Hw Es) Hr).
Qed.

Lemma update_cases (f : State -> State) (w : World) :
  update f w = with_state (f (state w)) w
  \/ update f w = loadPartners_begin (with_state (f (state w)) w).
Proof.
  unfold update, render. cbn [state with_state].
  destruct (deps_changed (state w) (f (state w))); [right | left]; reflexivity.
Qed.

Lemma step_error_cases (w w' : World) (e : Event) :
  step w e = Some w' ->
  error (state w') = ""
  \/ error (state w') = "Failed to load points"
  \/ error (state w') = error (state w).
Proof.
  intro Hs. destruct e as [text| |c|b|b|g|v|i o]; cbn in Hs.
  - injection Hs as <-. destruct (update_cases (setQuery text) w) as [-> | ->]; auto.
  - injection Hs as <-. auto.
  - injection Hs as <-. destruct (update_cases (setCategory c) w) as [-> | ->]; auto.
  - injection Hs as <-. destruct (update_cases (setHasCold b) w) as [-> | ->]; auto.
  - injection Hs as <-. destruct (update_cases (setHasHot b) w) as [-> | ->]; auto.
  - injection Hs as <-. destruct g as [| |lat lng]; cbn [onLocate]; auto.
    unfold Recenter. cbn [state].
    destruct (update_cases (setCenter (lat, lng)) w) as [-> | ->]; auto.
  - injection Hs as <-. auto.
  - destruct (settle_at i (calls w)) as [l|]; [| discriminate Hs].
    injection Hs as <-. cbn [state]. unfold loadPartners_resume.
    destruct (try_block o); auto.
Qed.

(** X11: whatever happens after mounting, the error text is either empty
    or the one fixed message, so the banner is either absent or shows
    exactly [Failed to load points]. *)
Theorem error_is_empty_or_fixed_message (es : list Event) (w : World) :
  run mount es = Some w ->
  (error (state w) = "" /\ error_banner (state w) = VText "")
  \/ (error (state w) = "Failed to load points" /\
      error_banner (state w)
        = VElem "div" None [className "text-red-600 text-sm"]
            [VText "Failed to load points"]).
Proof.
  intro Hr.
  assert (H : error (state w) = "" \/ error (state w) = "Failed to load points").
  { apply (run_invariant
             (fun w => error (state w) = ""
                       \/ error (state w) = "Failed to load points"))
      with (es := es) (w := mount); [| left; reflexivity | exact Hr].
    intros w0 e w1 H0 Hs.
    destruct (step_error_cases w0 w1 e Hs) as [E | [E | E]];
      [left; exact E | right; exact E | rewrite E; exact H0]. }
  unfold error_banner. destruct H as [H | H]; rewrite H; [left | right];
    split; reflexivity.
Qed.

Lemma error_is_empty_or_fixed_message_witness :
  (error (state mount) = "" /\ error_banner (state mount) = VText "")
  \/ (error (state mount) = "Failed to load points" /\
      error_banner (state mount)
        = VElem "div" None [className "text-red-600 text-sm"]
            [VText "Failed to load points"]).
Proof.
  apply (error_is_empty_or_fixed_message [] mount). reflexivity.
Defined.

Lemma pending_last (l : list Call) (r : URLSearchParams.t) :
  pending (l ++ [mkCall r false]) (List.length l) = true.
Proof.
  unfold pending. rewrite nth_error_app2 by lia.
  rewrite Nat.sub_diag. reflexivity.
Qed.

Lemma pending_app (l extra : list Call) (i : nat) :
  pending l i = true -> pending (l ++ extra) i = true.
Proof.
  unfold pending. intro H.
  destruct (nth_error l i) as [c|] eqn:E; [| discriminate H].
  rewrite nth_error_app1 by (apply nth_error_Some; congruence).
  rewrite E. exact H.
Qed.

Lemma loading_begin (w : World) :
  exists i, in_flight (loadPartners_begin w) i = true.
Proof.
  exists (List.length (calls w)). unfold in_flight. cbn [calls loadPartners_begin].
  apply pending_last.
Qed.

Lemma loading_update (f : State -> State) (w : World) :
  loading (f (state w)) = loading (state w) ->
  (loading (state w) = true -> exists i, in_flight w i = true) ->
  loading (state (update f w)) = true ->
  exists i, in_flight (update f w) i = true.
Proof.
  intros Hf Hw. destruct (update_cases f w) as [-> | ->].
  - cbn [state with_state]. rewrite Hf. exact Hw.
  - intros _. apply loading_begin.
Qed.

Lemma step_loading (w w' : World) (e : Event) :
  (loading (state w) = true -> exists i, in_flight w i = true) ->
  step w e = Some w' ->
  loading (state w') = true -> exists i, in_flight w' i = true.
Proof.
  intros Hw Hs. destruct e as [text| |c|b|b|g|v|i o]; cbn in Hs.
  - injection Hs as <-. apply loading_update; [reflexivity | exact Hw].
  - injection Hs as <-. intros _. apply loading_begin.
  - injection Hs as <-. apply loading_update; [reflexivity | exact Hw].
  - injection Hs as <-. apply loading_update; [reflexivity | exact Hw].
  - injection Hs as <-. apply loading_update; [reflexivity | exact Hw].
  - injection Hs as <-. destruct g as [| |lat lng]; cbn [onLocate]; try exact Hw.
    intro H.
    destruct (loading_update (setCenter (lat, lng)) w eq_refl Hw H) as [i Hi].
    exists i. exact Hi.
  - injection Hs as <-. exact Hw.
  - destruct (settle_at i (calls w)) as [l|]; [| discriminate Hs].
    injection Hs as <-. cbn [state]. unfold loadPartners_resume.
    destruct (try_block o); intro H; discriminate H.
Qed.

(** X12: the [loading] flag is only a lower bound on the traffic.  After
    mounting, whenever [loading] is true some call is still in flight;
    but the first response to arrive switches it off although another call
    is still in flight. *)
Theorem loading_flag_meaning :
  (forall es w, run mount es = Some w ->
                loading (state w) = true ->
                exists i, in_flight w i = true) /\
  (forall w i j o, i <> j ->
                   in_flight w i = true ->
                   in_flight w j = true ->
                   exists w', step w (Settle i o) = Some w' /\
                              loading (state w') = false /\
                              in_flight w' j = true).
Proof.
  split.
  - intros es w Hr.
    apply (run_invariant
             (fun w => loading (state w) = true -> exists i, in_flight w i = true)
             (fun w0 e w1 H0 Hs => step_loading w0 w1 e H0 Hs)
             es mount w); [| exact Hr].
    intros _. exists 0. reflexivity.
  - intros w i j o Hij Hi Hj.
    destruct (step_Settle w i o Hi) as (l & El & E).
    eexists. split; [exact E |]. split.
    + cbn [state]. unfold loadPartners_resume. destruct (try_block o); reflexivity.
    + unfold in_flight. cbn [calls].
      rewrite (pending_other _ _ _ _ El (not_eq_sym Hij)). exact Hj.
Qed.

Lemma loading_flag_meaning_witness :
  (exists i, in_flight (loadPartners_begin mount) i = true) /\
  (exists w', step (loadPartners_begin mount) (Settle 0 NetworkError) = Some w' /\
              loading (state w') = false /\
              in_flight w' 1 = true).
Proof.
  split.
  - apply (proj1 loading_flag_meaning [ClickSearch] (loadPartners_begin mount));
      reflexivity.
  - apply (proj2 loading_flag_meaning (loadPartners_begin mount) 0 1 NetworkError);
      [discriminate | reflexivity | reflexivity].
Defined.

Lemma calls_update_cases (f : State -> State) (w : World) :
  exists extra, calls (update f w) = (calls w ++ extra)%list.
Proof.
  rewrite calls_update. destruct (deps_changed _ _).
  - eexists. reflexivity.
  - exists []. rewrite app_nil_r. reflexivity.
Qed.

Lemma pending_settle_at (l l' : list Call) (i j : nat) :
  settle_at i l = Some l' -> pending l' j = true -> pending l j = true.
Proof.
  intros H Hj. destruct (Nat.eq_dec j i) as [-> | Hne].
  - rewrite (settle_at_done _ _ _ H) in Hj. discriminate Hj.
  - rewrite <- (pending_other _ _ _ _ H Hne). exact Hj.
Qed.

Lemma pending_app_inv (l extra : list Call) (i : nat) :
  i < List.length l -> pending (l ++ extra) i = true -> pending l i = true.
Proof.
  unfold pending. intros Hi H. rewrite nth_error_app1 in H by exact Hi. exact H.
Qed.

(** The requests sent so far are never altered or dropped by a step, and
    a call that has settled never becomes pending again. *)
Lemma step_history (w w' : World) (e : Event) :
  step w e = Some w' ->
  (exists extra,
      map request (calls w') = (map request (calls w) ++ extra)%list) /\
  (forall i, i < List.length (calls w) ->
             in_flight w' i = true -> in_flight w i = true).
Proof.
  assert (A : forall extra : list Call,
             (exists extra',
                 map request (calls w ++ extra)
                 = (map request (calls w) ++ extra')%list) /\
             (forall i, i < List.length (calls w) ->
                        pending (calls w ++ extra) i = true ->
                        pending (calls w) i = true)).
  { intro extra. split.
    - exists (map request extra). apply map_app.
    - intros i Hi. apply pending_app_inv. exact Hi. }
  assert (U : forall f,
             (exists extra',
                 map request (calls (update f w))
                 = (map request (calls w) ++ extra')%list) /\
             (forall i, i < List.length (calls w) ->
                        in_flight (update f w) i = true ->
                        in_flight w i = true)).
  { intro f. destruct (calls_update_cases f w) as [extra E].
    unfold in_flight. rewrite E. apply A. }
  intro Hs. destruct e as [text| |c|b|b|g|v|i o]; cbn in Hs.
  - injection Hs as <-. apply U.
  - injection Hs as <-. unfold in_flight. cbn [calls loadPartners_begin]. apply A.
  - injection Hs as <-. apply U.
  - injection Hs as <-. apply U.
  - injection Hs as <-. apply U.
  - injection Hs as <-. destruct g as [| |lat lng]; cbn [onLocate].
    + split; [exists []; rewrite app_nil_r; reflexivity | auto].
    + split; [exists []; rewrite app_nil_r; reflexivity | auto].
    + apply (U (setCenter (lat, lng))).
  - injection Hs as <-. split; [exists []; rewrite app_nil_r; reflexivity | auto].
  - destruct (settle_at i (calls w)) as [l|] eqn:E; [| discriminate Hs].
    injection Hs as <-. unfold in_flight. cbn [calls]. split.
    + exists []. rewrite app_nil_r. apply (settle_at_requests _ _ _ E).
    + intros j _. apply (pending_settle_at _ _ _ _ E).
Qed.

(** X13: the page keeps no way to cancel or revive a request: along any
    run the list of requests sent only grows at its end, and a call that
    has settled is never in flight again. *)
Theorem history_only_grows (es : list Event) (w w' : World) :
  run w es = Some w' ->
  (exists extra,
      map request (calls w') = (map request (calls w) ++ extra)%list) /\
  (forall i, i < List.length (calls w) ->
             in_flight w' i = true -> in_flight w i = true).
Proof.
  revert w. induction es as [|e es IH]; intros w Hr; cbn in Hr.
  - injection Hr as <-. split; [exists []; rewrite app_nil_r; reflexivity | auto].
  - destruct (step w e) as [w1|] eqn:Es; [| discriminate Hr].
    destruct (step_history w w1 e Es) as [[x1 E1] P1].
    destruct (IH w1 Hr) as [[x2 E2] P2].
    split.
    + exists (x1 ++ x2)%list. rewrite E2, E1, app_assoc. reflexivity.
    + intros i Hi H. apply (P1 i Hi). apply P2; [| exact H].
      assert (L : List.length (map request (calls w1))
                  = List.length (map request (calls w) ++ x1)%list)
        by (rewrite E1; reflexivity).
      rewrite length_app, !length_map in L. lia.
Qed.

Lemma history_only_grows_witness :
  exists w', run mount overlap_trace = Some w' /\
             (exists extra,
                 map request (calls w')
                 = (map request (calls mount) ++ extra)%list) /\
             (forall i, i < List.length (calls mount) ->
                        in_flight w' i = true -> in_flight mount i = true).
Proof.
  eexists. split; [reflexivity |].
  apply (history_only_grows overlap_trace mount). reflexivity.
Defined.

(** X14: as long as the user does not move the map, its view is the
    [center] cell at zoom 13: the zoom 12 given to [MapContainer] is
    overridden when the page mounts and never comes back. *)
Theorem view_follows_center (es : list Event) (w : World) :
  run mount es = Some w ->
  forallb (fun e => negb (is_MoveMap e)) es = true ->
  view w = mkViewport (center (state w)) 13%float.
Proof.
  assert (G : forall es w0 w,
             view w0 = mkViewport (center (state w0)) 13%float ->
             run w0 es = Some w ->
             forallb (fun e => negb (is_MoveMap e)) es = true ->
             view w = mkViewport (center (state w)) 13%float).
  { clear es w. intro es. induction es as [|e es IH]; intros w0 w H0 Hr Hf;
      cbn in Hr.
    - injection Hr as <-. exact H0.
    - cbn in Hf. apply andb_true_iff in Hf. destruct Hf as [He Hf].
      destruct (step w0 e) as [w1|] eqn:Es; [| discriminate Hr].
      apply (IH w1 w); [| exact Hr | exact Hf].
      destruct (moves_map e) eqn:Em.
      + destruct e as [text| |c|b|b|g|v|i o]; try discriminate Em;
          try discriminate He.
        destruct g as [| |lat lng]; try discriminate Em.
        cbn in Es. injection Es as <-. reflexivity.
      + destruct (step_keeps_map w0 w1 e Es Em) as [Hv Hc].
        rewrite Hv, Hc. exact H0. }
  intros Hr Hf. apply (G es mount w); [reflexivity | exact Hr | exact Hf].
Qed.

Lemma view_follows_center_witness :
  exists w, run mount [ ClickLocate (Position 57.1%float 65.5%float);
                        ClickCategory cafe; Settle 0 NetworkError ] = Some w /\
            view w = mkViewport (57.1%float, 65.5%float) 13%float.
Proof.
  eexists. split; [reflexivity |].
  apply (view_follows_center
           [ ClickLocate (Position 57.1%float 65.5%float);
             ClickCategory cafe; Settle 0 NetworkError ]);
    reflexivity.
Defined.

(** ** The search button *)

(** X15: the search button never holds a request back: [n] clicks in a
    row send [n] requests with the same parameters, all of them in flight
    together, and leave the criteria as they are. *)
Theorem search_sends_every_click (n : nat) (w : World) :
  exists w', run w (repeat ClickSearch n) = Some w' /\
             calls w' = (calls w
                         ++ repeat (mkCall (toQueryParameters (state w)) false) n)%list /\
             criteria (state w') = criteria (state w).
Proof.
  revert w. induction n as [|n IH]; intro w.
  - exists w. cbn. rewrite app_nil_r. repeat split.
  - destruct (IH (loadPartners_begin w)) as (w' & Hr & Hc & Hk).
    exists w'. split; [exact Hr |]. split; [| exact Hk].
    rewrite Hc. cbn [calls loadPartners_begin repeat].
    rewrite <- app_assoc. reflexivity.
Qed.

(** ** The category buttons *)

(** X16: exactly one category button is highlighted, the one of the
    current category, and a click on it changes nothing; a click on any
    other button selects its category, moves the highlight to it and
    sends one request. *)
Theorem category_buttons_highlight (w : World) :
  (exists b, filter highlighted (category_buttons (state w)) = [b] /\
             button_key b = category_key (category (state w)) /\
             step w (onClick b) = Some w) /\
  (forall b, In b (category_buttons (state w)) ->
             highlighted b = false ->
             exists w' b',
               step w (onClick b) = Some w' /\
               category_key (category (state w')) = button_key b /\
               filter highlighted (category_buttons (state w')) = [b'] /\
               button_key b' = button_key b /\
               List.length (calls w') = S (List.length (calls w))).
Proof.
  destruct w as [[ps ld er ce ca hot cold q] v cs]. split.
  - destruct ca; eexists; (split; [reflexivity |]); split; try reflexivity;
      destruct hot, cold; reflexivity.
  - intros b Hb Hh. cbn in Hb.
    destruct Hb as [<- | [<- | [<- | [<- | [<- | []]]]]];
      destruct ca; try discriminate Hh;
      eexists; eexists; (split; [reflexivity |]);
      (split; [reflexivity |]); (split; [reflexivity |]);
      (split; [reflexivity |]);
      cbn; rewrite length_app; cbn; lia.
Qed.

Lemma category_buttons_highlight_witness :
  exists w' b',
    step mount (ClickCategory shop) = Some w' /\
    category (state w') = shop /\
    filter highlighted (category_buttons (state w')) = [b'] /\
    button_key b' = "shop" /\
    List.length (calls w') = 2.
Proof.
  destruct (proj2 (category_buttons_highlight mount)
                  (category_button (state mount) (shop, "Shops")))
    as (w' & b' & Hs & Hc & Hf & Hk & Hl).
  - right. left. reflexivity.
  - reflexivity.
  - exists w', b'. split; [exact Hs |].
    cbn in Hs. injection Hs as <-.
    repeat split; [exact Hf | exact Hk].
Defined.

(** ** The updates page *)



(** X18: the updates page shows the empty-state message exactly when
    there are no items, and otherwise one card per item, in the order of
    the items, each keyed by its item's id. *)
Theorem updates_body_shape (s : UpdatesPage.State) :
  existsb is_empty_message (UpdatesPage.body s)
    = Nat.eqb (List.length (UpdatesPage.items s)) 0 /\
  cards s = map UpdatesPage.card (UpdatesPage.items s) /\
  map key_of (cards s)
    = map (fun it => Some (Update.id it)) (UpdatesPage.items s).
Proof.
  destruct s as [l]. unfold cards, UpdatesPage.body. cbn [UpdatesPage.items].
  split; [| split].
  - destruct l; reflexivity.
  - reflexivity.
  - rewrite map_map. reflexivity.
Qed.

(** X19: a card has a "Read more" link exactly when its item has a
    non-empty [external_url], and the link then leads to that URL. *)
Theorem read_more_link (it : Update.t) :
  card_links (UpdatesPage.card it)
    = match Update.external_url it with
      | Some (String a u) => [Some (AString (String a u))]
      | _ => []
      end.
Proof.
  unfold UpdatesPage.card, card_links.
  destruct (Update.external_url it) as [[|a u]|]; reflexivity.
Qed.
